(** * Inactive-service detector: a shallow embedding of [main.py]

    The program reads an optional list of active services, parses each
    configuration file (YAML or JSON) into a mapping and reports every
    entry that is the boolean [True] while its name is missing from the
    active list.

    Conventions of the embedding.
    - A Python [str] is a [string]; each character stands for the code
      point of the same number, so the embedding covers the texts whose
      code points are below 256.
    - The file system and the two parsers ([yaml.safe_load], [json.load])
      are the environment: a [world] record the functions read from.
    - A Python [dict] is an association list in insertion order; a
      well-formed one has no repeated key ([dict_ok]).
    - A [set] of strings is a [gset string]; [None] is [option]'s [None].
    - Logging is a list of records, in emission order. *)

From Stdlib Require Import ZArith NArith Ascii.
From stdpp Require Import base gmap strings list.

(** ** Characters and strings *)

Module Str.

(** [str.isspace] on one character (code points below 256). *)
Definition isspace (c : ascii) : bool :=
  let n := N_of_ascii c in
  ((9 <=? n) && (n <=? 13) || (28 <=? n) && (n <=? 32)
   || (n =? 133) || (n =? 160))%N.

(** [str.lower] on one character (code points below 256). *)
Definition lower_char (c : ascii) : ascii :=
  let n := N_of_ascii c in
  if ((65 <=? n) && (n <=? 90)
      || (192 <=? n) && (n <=? 222) && negb (n =? 215))%N
  then ascii_of_N (n + 32) else c.

Fixpoint lower (s : string) : string :=
  match s with
  | EmptyString => EmptyString
  | String c s' => String (lower_char c) (lower s')
  end.

Fixpoint lstrip (s : string) : string :=
  match s with
  | EmptyString => EmptyString
  | String c s' => if isspace c then lstrip s' else s
  end.

Fixpoint rstrip (s : string) : string :=
  match s with
  | EmptyString => EmptyString
  | String c s' =>
      match rstrip s' with
      | EmptyString => if isspace c then EmptyString else String c EmptyString
      | r => String c r
      end
  end.

(** [s.strip()] *)
Definition strip (s : string) : string := rstrip (lstrip s).

(** Python's truth value of a string. *)
Definition truthy (s : string) : bool :=
  match s with EmptyString => false | _ => true end.

Definition LF : ascii := "010"%char.
Definition CR : ascii := "013"%char.
Definition nl : string := String LF EmptyString.

(** Text mode with the default [newline=None]: CR LF and a lone CR are
    read as LF. *)
Fixpoint universal_newlines (s : string) : string :=
  match s with
  | EmptyString => EmptyString
  | String c s' =>
      if Ascii.eqb c CR then
        match s' with
        | String c' s'' =>
            if Ascii.eqb c' LF then String LF (universal_newlines s'')
            else String LF (universal_newlines s')
        | EmptyString => String LF EmptyString
        end
      else String c (universal_newlines s')
  end.

(** Iterating a text file: the lines, each with its terminating LF
    (the last one may lack it). *)
Fixpoint readlines (s : string) : list string :=
  match s with
  | EmptyString => []
  | String c s' =>
      if Ascii.eqb c LF then String c EmptyString :: readlines s'
      else match readlines s' with
           | [] => [String c EmptyString]
           | l :: ls => String c l :: ls
           end
  end.

(** [s.rfind(c)] for a one-character needle; [None] stands for -1. *)
Fixpoint rfind (c : ascii) (s : string) : option nat :=
  match s with
  | EmptyString => None
  | String x s' =>
      match rfind c s' with
      | Some i => Some (S i)
      | None => if Ascii.eqb x c then Some 0 else None
      end
  end.

Fixpoint all_dots (s : string) : bool :=
  match s with
  | EmptyString => true
  | String c s' => Ascii.eqb c "."%char && all_dots s'
  end.

End Str.

(** [os.path.splitext] of [posixpath]: the extension starts at the last
    dot of the last path component, unless that component has only dots
    before it. *)
Definition splitext (p : string) : string * string :=
  match Str.rfind "."%char p with
  | None => (p, EmptyString)
  | Some dotIndex =>
      let filenameIndex :=
        match Str.rfind "/"%char p with None => 0 | Some sepIndex => S sepIndex end in
      if (filenameIndex <=? dotIndex)
         && negb (Str.all_dots (String.substring filenameIndex (dotIndex - filenameIndex) p))
      then (String.substring 0 dotIndex p,
            String.substring dotIndex (String.length p - dotIndex) p)
      else (p, EmptyString)
  end.

(** ** Logging *)

Inductive level := DEBUG | INFO | WARNING | ERROR.

Record log_record := Log { lvl : level; msg : string }.

(** ** The environment *)

(** What [open(path, 'r')] and reading the handle give. *)
Inductive file_state :=
  | Missing                    (* open raises FileNotFoundError *)
  | Denied (e : string)        (* open raises another exception; [e] is its text *)
  | Undecodable (e : string)   (* open succeeds, reading raises *)
  | Text (t : string).         (* the contents *)

(** A parsed YAML or JSON document. *)
#[local] Set Warnings "-register-all".
Inductive value :=
  | VNone
  | VBool (b : bool)
  | VInt (z : Z)
  | VFloat (bits : Z)
  | VStr (s : string)
  | VList (l : list value)
  | VDict (d : list (string * value))
  | VOther (tag : string).
#[local] Set Warnings "register-all".

(** What a parser gives on a text. *)
Inductive load_result :=
  | Loaded (data : value)
  | DecodeError (e : string)   (* yaml.YAMLError, json.JSONDecodeError *)
  | LoadRaised (e : string).   (* any other exception *)

Record world := World {
  fs : string → file_state;
  yaml_safe_load : string → load_result;
  json_load : string → load_result;
  (* opening [path] for writing and writing [data]: [Some e] when it raises *)
  fs_write : string → string → option string
}.

(** ** Dictionaries *)

Definition dict := list (string * value).

Fixpoint dict_get (d : dict) (k : string) : option value :=
  match d with
  | [] => None
  | (k', v) :: d' => if String.eqb k' k then Some v else dict_get d' k
  end.

Definition dict_keys (d : dict) : list string := map fst d.

Definition dict_ok (d : dict) : Prop := NoDup (dict_keys d).

(** ** The detector *)

Record finding := Finding { file : string; service : string; reason : string }.

Definition REASON : string :=
  "Service is enabled in configuration but not listed as active.".

Definition is_service_active (service_name : string)
    (active_services : option (gset string)) : bool :=
  match active_services with
  | None => true
  | Some s => bool_decide (service_name ∈ s)
  end.

Definition usable (line : string) : bool := Str.truthy (Str.strip line).

Definition load_active_services (w : world) (service_list_file : string)
    : option (gset string) * list log_record :=
  match fs w service_list_file with
  | Text t =>
      let services : gset string :=
        list_to_set
          (map Str.strip
             (List.filter usable (Str.readlines (Str.universal_newlines t)))) in
      if bool_decide (services = ∅) then
        (None,
         [Log WARNING
            ("Active service list file '" +:+ service_list_file
             +:+ "' is empty. All enabled services will be considered potentially inactive.")])
      else (Some services, [])
  | Missing =>
      (None,
       [Log ERROR ("Active service list file not found: " +:+ service_list_file)])
  | Denied e | Undecodable e =>
      (None, [Log ERROR ("Error reading active service list file: " +:+ e)])
  end.

(** The test [isinstance(enabled, bool) and enabled] of the loop. *)
Definition isinstance_bool (v : value) : bool :=
  match v with VBool _ => true | _ => false end.

Definition bool_value (v : value) : bool :=
  match v with VBool b => b | _ => false end.

(** The loop over [data.items()]. *)
Fixpoint scan_items (config_file : string) (items : dict)
    (active_services : option (gset string)) : list finding :=
  match items with
  | [] => []
  | (service, enabled) :: rest =>
      if isinstance_bool enabled && bool_value enabled then
        if negb (is_service_active service active_services) then
          Finding config_file service REASON
          :: scan_items config_file rest active_services
        else scan_items config_file rest active_services
      else scan_items config_file rest active_services
  end.

Inductive exn := FileNotFoundError | OtherException (e : string).

(** How the [try] block ends before the detection loop. *)
Inductive read_outcome :=
  | Data (data : value)         (* falls through to the loop *)
  | ReturnEmpty (l : log_record) (* an inner [return []] *)
  | Raised (x : exn).

Definition parse_with (load : string → load_result) (kind config_file : string)
    (contents : file_state) : read_outcome :=
  match contents with
  | Text t =>
      match load t with
      | Loaded data => Data data
      | DecodeError e =>
          ReturnEmpty
            (Log ERROR
               ("Error parsing " +:+ kind +:+ " file " +:+ config_file +:+ ": " +:+ e))
      | LoadRaised e => Raised (OtherException e)
      end
  | Undecodable e | Denied e => Raised (OtherException e)
  | Missing => Raised FileNotFoundError
  end.

(** [os.path.splitext(config_file)[1].lower()] *)
Definition file_ext (config_file : string) : string :=
  Str.lower (snd (splitext config_file)).

Definition read_config (w : world) (config_file : string) : read_outcome :=
  let file_ext := file_ext config_file in
  match fs w config_file with
  | Missing => Raised FileNotFoundError
  | Denied e => Raised (OtherException e)
  | contents =>
      if String.eqb file_ext ".yaml" || String.eqb file_ext ".yml" then
        parse_with (yaml_safe_load w) "YAML" config_file contents
      else if String.eqb file_ext ".json" then
        parse_with (json_load w) "JSON" config_file contents
      else
        ReturnEmpty
          (Log WARNING
             ("Unsupported file type: " +:+ file_ext +:+ " for file "
              +:+ config_file +:+ ". Skipping."))
  end.

Definition analyze_config_file (w : world) (config_file : string)
    (active_services : option (gset string)) : list finding * list log_record :=
  match read_config w config_file with
  | Data (VDict d) => (scan_items config_file d active_services, [])
  | Data _ => ([], [])
  | ReturnEmpty l => ([], [l])
  | Raised FileNotFoundError =>
      ([], [Log ERROR ("Config file not found: " +:+ config_file)])
  | Raised (OtherException e) =>
      ([], [Log ERROR ("Error analyzing config file " +:+ config_file +:+ ": " +:+ e)])
  end.

(** ** Output formatting *)

Module Json.

Definition dq : ascii := "034"%char.

Definition hex_digit (n : N) : ascii :=
  match String.get (N.to_nat n) "0123456789abcdef" with
  | Some c => c
  | None => "0"%char
  end.

(** One character of [json.dumps]'s string encoding ([ensure_ascii]). *)
Definition escape_char (c : ascii) : string :=
  let n := N_of_ascii c in
  if Ascii.eqb c "\"%char then "\\"
  else if Ascii.eqb c dq then String "\"%char (String dq EmptyString)
  else if Ascii.eqb c "008"%char then "\b"
  else if Ascii.eqb c "012"%char then "\f"
  else if Ascii.eqb c "010"%char then "\n"
  else if Ascii.eqb c "013"%char then "\r"
  else if Ascii.eqb c "009"%char then "\t"
  else if ((32 <=? n) && (n <=? 126))%N then String c EmptyString
  else "\u00" +:+ String (hex_digit (n / 16)) (String (hex_digit (n mod 16)) EmptyString).

Fixpoint escape (s : string) : string :=
  match s with
  | EmptyString => EmptyString
  | String c s' => escape_char c +:+ escape s'
  end.

Definition str (s : string) : string :=
  String dq (escape s +:+ String dq EmptyString).

Definition member (indent key val : string) : string :=
  indent +:+ str key +:+ ": " +:+ str val.

(** A finding, as an item of the top-level array under [indent=4]. *)
Definition object (f : finding) : string :=
  "{" +:+ Str.nl
  +:+ member "        " "file" (file f) +:+ "," +:+ Str.nl
  +:+ member "        " "service" (service f) +:+ "," +:+ Str.nl
  +:+ member "        " "reason" (reason f) +:+ Str.nl
  +:+ "    }".

Fixpoint join (sep : string) (l : list string) : string :=
  match l with
  | [] => EmptyString
  | [x] => x
  | x :: l' => x +:+ sep +:+ join sep l'
  end.

(** [json.dumps(l, indent=4)] on a list of findings. *)
Definition dumps (l : list finding) : string :=
  match l with
  | [] => "[]"
  | _ => "[" +:+ Str.nl +:+ "    "
         +:+ join ("," +:+ Str.nl +:+ "    ") (map object l)
         +:+ Str.nl +:+ "]"
  end.

End Json.

Definition text_block (f : finding) : string :=
  "  File: " +:+ file f +:+ Str.nl
  +:+ "  Service: " +:+ service f +:+ Str.nl
  +:+ "  Reason: " +:+ reason f +:+ Str.nl
  +:+ Str.nl.

Definition format_text (l : list finding) : string :=
  match l with
  | [] => "No inactive service configurations found."
  | _ => "Inactive Service Configurations Found:" +:+ Str.nl
         +:+ foldr (λ f acc, text_block f +:+ acc) EmptyString l
  end.

(** ** The command line and the run *)

Inductive output_format := text | json.

(** The namespace [parse_args] returns. [nargs='+'] makes the parser
    itself refuse an empty [config_files] (see [accepted]). *)
Record args := Args {
  config_files : list string;
  service_list : option string;
  output : option string;
  format : output_format;
  debug : bool
}.

Definition accepted (a : args) : Prop := config_files a ≠ [].

(** Truth value of an optional string argument. *)
Definition given (o : option string) : option string :=
  match o with
  | Some p => if Str.truthy p then Some p else None
  | None => None
  end.

Inductive stdout_event := PrintHelp | Print (s : string).

Record run := Run {
  exit_code : Z;
  analyzed : list string;                 (* files handed to the analysis *)
  all_inactive_services : list finding;
  output_data : option string;            (* the formatted report, once built *)
  stdout : list stdout_event;
  written : option (string * string);     (* path and contents written *)
  logged : list log_record
}.

Definition render (fmt : output_format) (l : list finding) : string :=
  match fmt with
  | json => Json.dumps l
  | text => format_text l
  end.

(** Lines 141-173: analysis of every file, formatting, output, exit. *)
Definition report (w : world) (a : args) (active_services : option (gset string))
    (log : list log_record) : run :=
  let results := map (λ f, analyze_config_file w f active_services) (config_files a) in
  let all := concat (map fst results) in
  let log := log ++ concat (map snd results) in
  let out := render (format a) all in
  let code := match all with [] => 0%Z | _ => 1%Z end in
  match given (output a) with
  | Some p =>
      match fs_write w p out with
      | None =>
          Run code (config_files a) all (Some out) [] (Some (p, out))
            (log ++ [Log INFO ("Output written to: " +:+ p)])
      | Some e =>
          Run 1 (config_files a) all (Some out) [] None
            (log ++ [Log ERROR ("Error writing to output file: " +:+ e)])
      end
  | None => Run code (config_files a) all (Some out) [Print out] None log
  end.

Definition main (w : world) (a : args) : run :=
  let log := if debug a then [Log DEBUG "Debug mode enabled."] else [] in
  match config_files a with
  | [] =>
      Run 1 [] [] None [PrintHelp] None
        (log ++ [Log ERROR "No configuration files specified."])
  | _ =>
      match given (service_list a) with
      | Some p =>
          match load_active_services w p with
          | (Some s, l) => report w a (Some s) (log ++ l)
          | (None, l) =>
              Run 1 [] [] None [] None
                (log ++ l ++ [Log ERROR "Failed to load active service list, exiting..."])
          end
      | None => report w a None log
      end
  end.

(** ** Vocabulary of the properties *)

(** The lines the loader iterates over. *)
Definition source_lines (t : string) : list string :=
  Str.readlines (Str.universal_newlines t).

(** The set the loader's comprehension builds from the lines of a text. *)
Definition services_of (t : string) : gset string :=
  list_to_set (map Str.strip (List.filter usable (source_lines t))).

(** The findings of one file. *)
Definition findings_of (w : world) (active_services : option (gset string))
    (config_file : string) : list finding :=
  (analyze_config_file w config_file active_services).1.

(** The service list was asked for and did not load. *)
Definition load_failed (w : world) (a : args) : Prop :=
  ∃ p, given (service_list a) = Some p ∧ (load_active_services w p).1 = None.

(** The report was built and writing it to the requested file raised. *)
Definition write_failed (w : world) (a : args) : Prop :=
  ∃ p out e, given (output a) = Some p
             ∧ output_data (main w a) = Some out
             ∧ fs_write w p out = Some e.

(** The active set the run works with. *)
Definition active_set (w : world) (a : args) : option (gset string) :=
  match given (service_list a) with
  | Some p => (load_active_services w p).1
  | None => None
  end.

Definition yaml_ext (e : string) : Prop := e = ".yaml" ∨ e = ".yml".
Definition json_ext (e : string) : Prop := e = ".json".

(** The ways one configuration file can fail to yield a mapping. *)
Inductive per_file_problem (w : world) (config_file : string) : Prop :=
  | missing_file :
      fs w config_file = Missing → per_file_problem w config_file
  | unreadable_file e :
      fs w config_file = Denied e → per_file_problem w config_file
  | undecodable_file e :
      fs w config_file = Undecodable e →
      yaml_ext (file_ext config_file) ∨ json_ext (file_ext config_file) →
      per_file_problem w config_file
  | unsupported_extension :
      ¬ yaml_ext (file_ext config_file) → ¬ json_ext (file_ext config_file) →
      per_file_problem w config_file
  | malformed_yaml t e :
      fs w config_file = Text t → yaml_ext (file_ext config_file) →
      yaml_safe_load w t = DecodeError e → per_file_problem w config_file
  | malformed_json t e :
      fs w config_file = Text t → json_ext (file_ext config_file) →
      json_load w t = DecodeError e → per_file_problem w config_file
  | yaml_parser_raised t e :
      fs w config_file = Text t → yaml_ext (file_ext config_file) →
      yaml_safe_load w t = LoadRaised e → per_file_problem w config_file
  | json_parser_raised t e :
      fs w config_file = Text t → json_ext (file_ext config_file) →
      json_load w t = LoadRaised e → per_file_problem w config_file
  | yaml_not_a_mapping t v :
      fs w config_file = Text t → yaml_ext (file_ext config_file) →
      yaml_safe_load w t = Loaded v → (∀ d, v ≠ VDict d) →
      per_file_problem w config_file
  | json_not_a_mapping t v :
      fs w config_file = Text t → json_ext (file_ext config_file) →
      json_load w t = Loaded v → (∀ d, v ≠ VDict d) →
      per_file_problem w config_file.

(** Letter-case variants: [c] is [l] or the ASCII capital of [l]. *)
Definition upper_char (l : ascii) : ascii :=
  let n := N_of_ascii l in
  if ((97 <=? n) && (n <=? 122))%N then ascii_of_N (n - 32) else l.

Definition case_variant_char (c l : ascii) : bool :=
  Ascii.eqb c l || Ascii.eqb c (upper_char l).

Fixpoint case_variant (s target : string) : bool :=
  match s, target with
  | EmptyString, EmptyString => true
  | String c s', String l t' => case_variant_char c l && case_variant s' t'
  | _, _ => false
  end.

(** ** A sample environment *)

Module Sample.

Definition services : dict :=
  [("ftpd", VBool true); ("sshd", VBool true); ("cron", VBool false);
   ("httpd", VStr "true"); ("ntpd", VInt 1); ("smtpd", VStr "yes")].

Definition list_txt : string :=
  "  sshd " +:+ String Str.CR Str.nl +:+ Str.nl +:+ "cron".

Definition w : world := {|
  fs p :=
    if String.eqb p "conf.JSON" then Text "{services}"
    else if String.eqb p "other.Yml" then Text "- a list"
    else if String.eqb p "etc/svc.d/net.YAML" then Text "telnetd: true"
    else if String.eqb p "broken.yaml" then Text "{"
    else if String.eqb p "list.txt" then Text list_txt
    else if String.eqb p "blank.txt" then Text ("  " +:+ Str.nl)
    else Missing;
  yaml_safe_load t :=
    if String.eqb t "- a list" then Loaded (VList [VStr "a list"])
    else if String.eqb t "telnetd: true" then Loaded (VDict [("telnetd", VBool true)])
    else DecodeError "while parsing a flow node";
  json_load t :=
    if String.eqb t "{services}" then Loaded (VDict services)
    else DecodeError "Expecting value";
  fs_write p _ :=
    if String.eqb p "report.txt" then None else Some "No such file or directory"
|}.

Definition sshd_only : gset string := {[ "sshd" ]}.
Definition sshd_ftpd : gset string := {[ "sshd"; "ftpd" ]}.

(** One file checked against the list: [ftpd] is reported. *)
Definition a_checked : args :=
  Args ["conf.JSON"] (Some "list.txt") None text false.

(** The same file with no service list. *)
Definition a_unchecked : args :=
  Args ["conf.JSON"] None None text false.

(** No service list, and an output file that cannot be written. *)
Definition a_unwritable : args :=
  Args ["conf.JSON"] None (Some "/no/such/dir/report.txt") text false.

Definition a_unwritable_json : args :=
  Args ["other.Yml"; "conf.JSON"] None (Some "/no/such/dir/report.json") json false.

(** The service list given as the empty string. *)
Definition a_empty_path : args :=
  Args ["conf.JSON"] (Some EmptyString) None text false.

(** A service list that does not exist. *)
Definition a_missing_list : args :=
  Args ["conf.JSON"] (Some "nolist.txt") None text false.

(** A malformed file and an unsupported one around a good one. *)
Definition a_mixed : args :=
  Args ["broken.yaml"; "notes.ini"; "conf.JSON"] (Some "list.txt")
    (Some "report.txt") json false.

End Sample.

(** ** Vocabulary of the further properties *)

(** The same command line with one option replaced. *)
Definition with_debug (b : bool) (a : args) : args :=
  Args (config_files a) (service_list a) (output a) (format a) b.

Definition with_service_list (o : option string) (a : args) : args :=
  Args (config_files a) o (output a) (format a) (debug a).

Definition with_output (o : option string) (a : args) : args :=
  Args (config_files a) (service_list a) o (format a) (debug a).

(** The piece of the report that shows one finding. *)
Definition block (fmt : output_format) (f : finding) : string :=
  match fmt with
  | text => text_block f
  | json => Json.object f
  end.

Fixpoint chars (s : string) : list ascii :=
  match s with
  | EmptyString => []
  | String c s' => c :: chars s'
  end.

Definition printable (c : ascii) : bool :=
  let n := N_of_ascii c in ((32 <=? n) && (n <=? 126))%N.


Definition CRLF_ : string := String Str.CR (String Str.LF EmptyString).


(** The names written one per line, each followed by [e]. *)
Fixpoint one_per_line (e : string) (names : list string) : string :=
  match names with
  | [] => EmptyString
  | n :: names' => n +:+ e +:+ one_per_line e names'
  end.

(** A second sample: a service list with CR LF line ends and a file with
    no extension. *)
Module Sample2.

Definition names : list string := ["sshd"; "cron"; "ntpd"].

Definition w : world := {|
  fs p :=
    if String.eqb p "active.txt" then Text (one_per_line CRLF_ names)
    else if String.eqb p "Makefile" then Text "all:"
    else Missing;
  yaml_safe_load _ := DecodeError "no document";
  json_load _ := DecodeError "no document";
  fs_write _ _ := None
|}.

Definition ftpd_finding : finding :=
  Finding "conf.JSON" "ftpd" REASON.

Definition telnetd_finding : finding :=
  Finding "etc/svc.d/net.YAML" "telnetd" REASON.

End Sample2.

(** ** Strings: trimming *)

Section Strip.

Lemma lstrip_head (s : string) :
  Str.lstrip s = EmptyString
  ∨ ∃ c r, Str.lstrip s = String c r ∧ Str.isspace c = false.
Proof.
  induction s as [|c s IH]; simpl; [by left|].
  destruct (Str.isspace c) eqn:Hc; [exact IH|].
  right. by exists c, s.
Qed.

Lemma lstrip_fixed (c : ascii) (r : string) :
  Str.isspace c = false → Str.lstrip (String c r) = String c r.
Proof. intros Hc. simpl. by rewrite Hc. Qed.

Lemma rstrip_head (c : ascii) (r : string) :
  Str.isspace c = false → ∃ r', Str.rstrip (String c r) = String c r'.
Proof.
  intros Hc. simpl. destruct (Str.rstrip r) as [|c' r'].
  - rewrite Hc. by eexists.
  - by eexists.
Qed.

Lemma rstrip_idem (s : string) : Str.rstrip (Str.rstrip s) = Str.rstrip s.
Proof.
  induction s as [|c s IH]; simpl; [done|].
  destruct (Str.rstrip s) as [|c' r'] eqn:Hr.
  - destruct (Str.isspace c) eqn:Hc; simpl; [done|]. by rewrite Hc.
  - change (Str.rstrip (String c (String c' r')))
      with (match Str.rstrip (String c' r') with
            | EmptyString =>
                if Str.isspace c then EmptyString else String c EmptyString
            | r => String c r
            end).
    by rewrite IH.
Qed.

Lemma strip_idem (s : string) : Str.strip (Str.strip s) = Str.strip s.
Proof.
  unfold Str.strip.
  destruct (lstrip_head s) as [->|(c & r & -> & Hc)]; [done|].
  destruct (rstrip_head c r Hc) as [r' Hr'].
  rewrite Hr', (lstrip_fixed c r' Hc), <- Hr'. apply rstrip_idem.
Qed.

Lemma truthy_nonempty (s : string) : Str.truthy s = true ↔ s ≠ EmptyString.
Proof. destruct s; simpl; split; (done || congruence). Qed.

End Strip.

(** ** The loader of the active-service list *)

Section Loader.

Variable w : world.

Lemma elem_of_services_of (t x : string) :
  x ∈ services_of t
  ↔ x ≠ EmptyString ∧ ∃ line, line ∈ source_lines t ∧ Str.strip line = x.
Proof.
  unfold services_of. rewrite elem_of_list_to_set, list_elem_of_In, in_map_iff.
  split.
  - intros (line & <- & Hin). apply filter_In in Hin as [Hin Hu].
    split; [by apply truthy_nonempty|].
    exists line. by rewrite list_elem_of_In.
  - intros (Hx & line & Hin & <-). exists line. split; [done|].
    apply filter_In. split; [by apply list_elem_of_In|by apply truthy_nonempty].
Qed.

Lemma services_of_empty (t : string) :
  services_of t = ∅
  ↔ ∀ line, line ∈ source_lines t → Str.strip line = EmptyString.
Proof.
  split.
  - intros He line Hin.
    destruct (decide (Str.strip line = EmptyString)) as [|Hne]; [done|].
    assert (Str.strip line ∈ services_of t) as Hx
      by (apply elem_of_services_of; eauto).
    rewrite He in Hx. set_solver.
  - intros Hall. apply set_eq. intros x. rewrite elem_of_services_of.
    split; [|set_solver].
    intros (Hx & line & Hin & <-). by rewrite Hall in Hx.
Qed.

Lemma load_text (p t : string) :
  fs w p = Text t →
  (load_active_services w p).1
  = if bool_decide (services_of t = ∅) then None else Some (services_of t).
Proof.
  intros Hfs. unfold load_active_services. rewrite Hfs.
  fold (source_lines t). fold (services_of t). by case_bool_decide.
Qed.

(** C5: the loader returns [None] or a set that is not empty; a returned
    set holds exactly the trimmed forms of the lines that are not blank
    once trimmed, each element is itself trimmed and not blank; [None] is
    returned exactly when the source is missing, cannot be read, or has no
    usable line. *)
Theorem load_active_services_spec (p : string) :
  (∀ s, (load_active_services w p).1 = Some s →
        s ≠ ∅
        ∧ (∀ x, x ∈ s → Str.strip x = x ∧ x ≠ EmptyString)
        ∧ ∃ t, fs w p = Text t
               ∧ ∀ x, x ∈ s ↔ x ≠ EmptyString
                               ∧ ∃ line, line ∈ source_lines t ∧ Str.strip line = x)
  ∧ ((load_active_services w p).1 = None
     ↔ fs w p = Missing
       ∨ (∃ e, fs w p = Denied e ∨ fs w p = Undecodable e)
       ∨ ∃ t, fs w p = Text t
              ∧ ∀ line, line ∈ source_lines t → Str.strip line = EmptyString)
  ∧ (load_active_services w p).1 ≠ Some ∅.
Proof.
  destruct (fs w p) as [|e|e|t] eqn:Hfs.
  1-3: unfold load_active_services; rewrite Hfs; simpl;
       (split; [done|]); (split; [|done]); split; eauto 6.
  rewrite (load_text p t Hfs).
  case_bool_decide as He.
  - split; [done|]. split; [|done]. split; [|done].
    intros _. right. right. exists t. split; [done|]. by apply services_of_empty.
  - split; [|split].
    + intros s [= <-]. split; [done|]. split.
      * intros x (Hx & line & _ & <-)%elem_of_services_of.
        split; [apply strip_idem|done].
      * exists t. split; [done|]. apply elem_of_services_of.
    + split; [done|].
      intros [|[(e & [|])|(t' & [= <-] & Hall)]]; try done.
      by apply services_of_empty in Hall.
    + congruence.
Qed.

(** The loader on the sample list: CR LF is one line break, the blank line
    is dropped, the names are trimmed. *)
Example load_sample :
  (load_active_services Sample.w "list.txt").1 = Some {[ "sshd"; "cron" ]}.
Proof. vm_compute. reflexivity. Qed.

End Loader.

(** ** The detection rule *)

Section Detector.

Variable w : world.

Lemma is_service_active_false (n : string) (A : option (gset string)) :
  is_service_active n A = false ↔ ∃ S, A = Some S ∧ n ∉ S.
Proof.
  destruct A as [S|]; simpl.
  - rewrite bool_decide_eq_false. split; [eauto|].
    by intros (S' & [= <-] & Hn).
  - split; [done|]. by intros (S & ? & _).
Qed.

Lemma enabled_true (v : value) :
  isinstance_bool v && bool_value v = true ↔ v = VBool true.
Proof. destruct v as [| [] | | | | | |]; simpl; naive_solver. Qed.

Lemma elem_of_scan_items (cf : string) (M : dict) (A : option (gset string))
    (f : finding) :
  f ∈ scan_items cf M A
  ↔ ∃ n, f = Finding cf n REASON
         ∧ (n, VBool true) ∈ M ∧ is_service_active n A = false.
Proof.
  induction M as [|[k v] M IH]; simpl.
  - split; [by intros ?%elem_of_nil|]. by intros (n & _ & ?%elem_of_nil & _).
  - destruct (isinstance_bool v && bool_value v) eqn:Hen.
    + apply enabled_true in Hen as ->.
      destruct (is_service_active k A) eqn:Hact; simpl.
      * rewrite IH. split.
        -- intros (n & -> & Hin & Hn). exists n. by rewrite elem_of_cons; auto.
        -- intros (n & -> & Hin & Hn). exists n.
           apply elem_of_cons in Hin as [[= -> ]|Hin]; [congruence|done].
      * rewrite elem_of_cons, IH. split.
        -- intros [->|(n & -> & Hin & Hn)].
           ++ exists k. by rewrite elem_of_cons; auto.
           ++ exists n. by rewrite elem_of_cons; auto.
        -- intros (n & -> & Hin & Hn).
           apply elem_of_cons in Hin as [[= -> ]|Hin]; [by left|].
           right. by exists n.
    + rewrite IH. split.
      * intros (n & -> & Hin & Hn). exists n. by rewrite elem_of_cons; auto.
      * intros (n & -> & Hin & Hn). exists n.
        apply elem_of_cons in Hin as [[= <- <-]|Hin]; [discriminate Hen|done].
Qed.

Lemma dict_get_elem_of (M : dict) (n : string) (v : value) :
  dict_ok M → (n, v) ∈ M ↔ dict_get M n = Some v.
Proof.
  unfold dict_ok, dict_keys. induction M as [|[k v'] M IH]; simpl.
  - intros _. split; [by intros ?%elem_of_nil|done].
  - intros [Hk HM]%NoDup_cons. rewrite elem_of_cons.
    destruct (String.eqb_spec k n) as [->|Hne].
    + split.
      * intros [[= ->]|Hin]; [done|].
        exfalso. apply Hk. apply list_elem_of_In, in_map_iff.
        exists (n, v). split; [done|]. by apply list_elem_of_In.
      * intros [= ->]. by left.
    + rewrite <- (IH HM). split; [|auto].
      intros [[= -> ->]|Hin]; [done|done].
Qed.

Lemma analyze_mapping (cf : string) (A : option (gset string)) (M : dict) :
  read_config w cf = Data (VDict M) →
  (analyze_config_file w cf A).1 = scan_items cf M A.
Proof. intros H. unfold analyze_config_file. by rewrite H. Qed.

Lemma findings_from_mapping (cf : string) (A : option (gset string))
    (f : finding) :
  f ∈ (analyze_config_file w cf A).1 →
  ∃ M, read_config w cf = Data (VDict M) ∧ f ∈ scan_items cf M A.
Proof.
  unfold analyze_config_file.
  destruct (read_config w cf) as [[]|l|[|e]]; simpl;
    try (by intros ?%elem_of_nil).
  eauto.
Qed.

(** C1: on a file that parses to a mapping [M], a finding is emitted for a
    key [n] exactly when [M[n]] is the boolean [True], the active set is
    not [None] and [n] is not in it; such a finding names the analysed
    path, [n] and the fixed reason. *)
Theorem finding_iff (cf : string) (A : option (gset string)) (M : dict)
    (n : string) :
  read_config w cf = Data (VDict M) → dict_ok M →
  ((∃ f, f ∈ (analyze_config_file w cf A).1 ∧ service f = n)
   ↔ dict_get M n = Some (VBool true) ∧ ∃ S, A = Some S ∧ n ∉ S)
  ∧ (∀ f, f ∈ (analyze_config_file w cf A).1 → service f = n →
          f = {| file := cf; service := n;
                 reason := "Service is enabled in configuration but not listed as active." |}).
Proof.
  intros Hrd Hok. rewrite (analyze_mapping cf A M Hrd). split.
  - rewrite <- is_service_active_false, <- (dict_get_elem_of M n _ Hok). split.
    + intros (f & (n' & -> & Hin & Hact)%elem_of_scan_items & <-). done.
    + intros [Hin Hact]. exists (Finding cf n REASON). split; [|done].
      apply elem_of_scan_items. eauto.
  - intros f (n' & -> & _)%elem_of_scan_items <-. done.
Qed.

(** C3: on a file that parses to a mapping, an entry whose value is not of
    boolean type yields no finding, every finding comes from an entry that
    is the boolean [True], and the string "true", the integer 1 and the
    string "yes" are not of boolean type. *)
Theorem non_boolean_never_reported (cf : string) (A : option (gset string))
    (M : dict) :
  read_config w cf = Data (VDict M) → dict_ok M →
  (∀ n v, dict_get M n = Some v → isinstance_bool v = false →
          ¬ ∃ f, f ∈ (analyze_config_file w cf A).1 ∧ service f = n)
  ∧ (∀ f, f ∈ (analyze_config_file w cf A).1 →
          dict_get M (service f) = Some (VBool true))
  ∧ isinstance_bool (VStr "true") = false
  ∧ isinstance_bool (VInt 1) = false
  ∧ isinstance_bool (VStr "yes") = false.
Proof.
  intros Hrd Hok. rewrite (analyze_mapping cf A M Hrd).
  assert (∀ f, f ∈ scan_items cf M A →
               dict_get M (service f) = Some (VBool true)) as Hget.
  { intros f (n & -> & Hin & _)%elem_of_scan_items. simpl.
    by apply dict_get_elem_of. }
  split; [|by split].
  intros n v Hv Hnb (f & Hf & <-). rewrite (Hget f Hf) in Hv.
  by injection Hv as <-.
Qed.

(** C10: with two active sets, one inside the other, every finding made
    with the larger set is also made with the smaller one. *)
Theorem findings_antitone (cf : string) (A A' : gset string) :
  A ⊆ A' →
  ∀ f, f ∈ (analyze_config_file w cf (Some A')).1 →
       f ∈ (analyze_config_file w cf (Some A)).1.
Proof.
  intros Hsub f (M & Hrd & Hf)%findings_from_mapping.
  rewrite (analyze_mapping cf _ M Hrd).
  apply elem_of_scan_items in Hf as (n & -> & Hin & Hact).
  apply elem_of_scan_items. exists n. split; [done|]. split; [done|].
  apply is_service_active_false in Hact as (S & [= <-] & Hn).
  apply is_service_active_false. exists A. split; [done|]. set_solver.
Qed.

End Detector.

(** ** Per-file problems *)

Section PerFile.

Variable w : world.

Lemma ext_dispatch_yaml (e : string) :
  yaml_ext e → String.eqb e ".yaml" || String.eqb e ".yml" = true.
Proof. by intros [-> | ->]. Qed.

Lemma ext_dispatch_json (e : string) :
  json_ext e →
  String.eqb e ".yaml" || String.eqb e ".yml" = false
  ∧ String.eqb e ".json" = true.
Proof. by intros ->. Qed.

Lemma ext_dispatch_other (e : string) :
  ¬ yaml_ext e → ¬ json_ext e →
  String.eqb e ".yaml" || String.eqb e ".yml" = false
  ∧ String.eqb e ".json" = false.
Proof.
  unfold yaml_ext, json_ext. intros Hy Hj.
  destruct (String.eqb_spec e ".yaml"); [tauto|].
  destruct (String.eqb_spec e ".yml"); [tauto|].
  by destruct (String.eqb_spec e ".json").
Qed.

Lemma read_config_yaml (cf : string) :
  yaml_ext (file_ext cf) →
  read_config w cf = parse_with (yaml_safe_load w) "YAML" cf (fs w cf).
Proof.
  intros Hy%ext_dispatch_yaml. unfold read_config. rewrite Hy.
  by destruct (fs w cf).
Qed.

Lemma read_config_json (cf : string) :
  json_ext (file_ext cf) →
  read_config w cf = parse_with (json_load w) "JSON" cf (fs w cf).
Proof.
  intros [Hy Hj]%ext_dispatch_json. unfold read_config. rewrite Hy, Hj.
  by destruct (fs w cf).
Qed.

Lemma problem_no_mapping (cf : string) :
  per_file_problem w cf → ∀ d, read_config w cf ≠ Data (VDict d).
Proof.
  intros Hp d.
  destruct Hp as [H|e H|e H [Hx|Hx]|Hy Hj|t e H Hx Hl|t e H Hx Hl
                 |t e H Hx Hl|t e H Hx Hl|t v H Hx Hl Hv|t v H Hx Hl Hv].
  - unfold read_config. by rewrite H.
  - unfold read_config. by rewrite H.
  - by rewrite (read_config_yaml cf Hx), H.
  - by rewrite (read_config_json cf Hx), H.
  - destruct (ext_dispatch_other _ Hy Hj) as [Hy' Hj'].
    unfold read_config. rewrite Hy', Hj'. by destruct (fs w cf).
  - rewrite (read_config_yaml cf Hx), H. simpl. by rewrite Hl.
  - rewrite (read_config_json cf Hx), H. simpl. by rewrite Hl.
  - rewrite (read_config_yaml cf Hx), H. simpl. by rewrite Hl.
  - rewrite (read_config_json cf Hx), H. simpl. by rewrite Hl.
  - rewrite (read_config_yaml cf Hx), H. simpl. rewrite Hl. intros [= ->].
    by eapply Hv.
  - rewrite (read_config_json cf Hx), H. simpl. rewrite Hl. intros [= ->].
    by eapply Hv.
Qed.

Lemma no_mapping_no_findings (cf : string) (A : option (gset string)) :
  (∀ d, read_config w cf ≠ Data (VDict d)) →
  (analyze_config_file w cf A).1 = [].
Proof.
  intros Hn. unfold analyze_config_file.
  destruct (read_config w cf) as [[]|l|[|e]]; try done.
  by edestruct Hn.
Qed.

Lemma scan_items_None (cf : string) (M : dict) : scan_items cf M None = [].
Proof.
  induction M as [|[k v] M IH]; simpl; [done|].
  by destruct (isinstance_bool v && bool_value v).
Qed.

Lemma analyze_None (cf : string) : (analyze_config_file w cf None).1 = [].
Proof.
  unfold analyze_config_file.
  destruct (read_config w cf) as [[]|l|[|e]]; try done.
  apply scan_items_None.
Qed.

End PerFile.

(** ** The run *)

Section Run.

Variable w : world.

(** What [report] leaves in each field of the run. *)
Lemma report_fields (a : args) (A : option (gset string)) (log : list log_record) :
  let r := report w a A log in
  let all := concat (map (findings_of w A) (config_files a)) in
  analyzed r = config_files a
  ∧ all_inactive_services r = all
  ∧ output_data r = Some (render (format a) all)
  ∧ (given (output a) = None →
       stdout r = [Print (render (format a) all)] ∧ written r = None
       ∧ exit_code r = match all with [] => 0%Z | _ => 1%Z end)
  ∧ (∀ p, given (output a) = Some p →
       stdout r = []
       ∧ match fs_write w p (render (format a) all) with
         | None => written r = Some (p, render (format a) all)
                   ∧ exit_code r = match all with [] => 0%Z | _ => 1%Z end
         | Some e => written r = None ∧ exit_code r = 1%Z
         end).
Proof.
  simpl. unfold report. rewrite map_map. fold (findings_of w A).
  destruct (given (output a)) as [p|] eqn:Hout.
  - destruct (fs_write w p _) eqn:Hw; simpl.
    all: split; [done|]; split; [done|]; split; [done|]; split; [done|].
    all: intros p' [= <-]; rewrite Hw; done.
  - simpl. split; [done|]. split; [done|]. split; [done|]. split; [done|].
    intros p' [=].
Qed.

(** A run that gets past the loading of the service list is the report
    over the active set. *)
Lemma main_reports (a : args) :
  accepted a → ¬ load_failed w a →
  ∃ log, main w a = report w a (active_set w a) log.
Proof.
  unfold accepted, load_failed, active_set, main. intros Hacc Hload.
  destruct (config_files a) as [|f fs']; [done|].
  destruct (given (service_list a)) as [p|]; [|by eexists].
  destruct (load_active_services w p) as [[s|] l] eqn:Hl; simpl; [by eexists|].
  exfalso. apply Hload. exists p. by rewrite Hl.
Qed.

Lemma main_aborts (a : args) (p : string) :
  given (service_list a) = Some p → (load_active_services w p).1 = None →
  exit_code (main w a) = 1%Z
  ∧ analyzed (main w a) = []
  ∧ all_inactive_services (main w a) = []
  ∧ output_data (main w a) = None
  ∧ written (main w a) = None.
Proof.
  unfold main. intros -> Hl.
  destruct (config_files a) as [|f fs']; [done|].
  destruct (load_active_services w p) as [[s|] l]; done.
Qed.

Lemma exit_code_of_report (a : args) (A : option (gset string))
    (log : list log_record) :
  let r := report w a A log in
  (all_inactive_services r ≠ [] → exit_code r = 1%Z)
  ∧ ((∃ p e, given (output a) = Some p
             ∧ fs_write w p (render (format a) (all_inactive_services r)) = Some e) →
     exit_code r = 1%Z)
  ∧ (all_inactive_services r = [] →
     (∀ p, given (output a) = Some p →
           fs_write w p (render (format a) (all_inactive_services r)) = None) →
     exit_code r = 0%Z).
Proof.
  destruct (report_fields a A log) as (_ & Hall & _ & Hstd & Hfile).
  simpl in *. rewrite Hall.
  set (all := concat (map (findings_of w A) (config_files a))) in *.
  destruct (given (output a)) as [p|] eqn:Hout.
  - specialize (Hfile p eq_refl) as [_ Hfile]. split; [|split].
    + intros Hne. destruct (fs_write w p _); [by destruct Hfile|].
      destruct Hfile as [_ ->]. by destruct all.
    + intros (p' & e & [= <-] & He). rewrite He in Hfile. by destruct Hfile.
    + intros Hnil Hok. rewrite (Hok p eq_refl) in Hfile.
      destruct Hfile as [_ ->]. by rewrite Hnil.
  - destruct (Hstd eq_refl) as (_ & _ & ->). split; [|split].
    + by destruct all.
    + by intros (p & e & ? & _).
    + by intros ->.
Qed.

Lemma exit_code_cases (a : args) :
  accepted a →
  (load_failed w a → exit_code (main w a) = 1%Z)
  ∧ (all_inactive_services (main w a) ≠ [] → exit_code (main w a) = 1%Z)
  ∧ (write_failed w a → exit_code (main w a) = 1%Z)
  ∧ (¬ load_failed w a → ¬ write_failed w a →
     all_inactive_services (main w a) = [] → exit_code (main w a) = 0%Z).
Proof.
  intros Hacc.
  assert (load_failed w a → exit_code (main w a) = 1%Z
          ∧ all_inactive_services (main w a) = []
          ∧ output_data (main w a) = None) as Hab.
  { intros (p & Hp & Hl). by destruct (main_aborts a p Hp Hl) as (? & ? & ? & ? & ?). }
  assert (¬ load_failed w a →
          (all_inactive_services (main w a) ≠ [] → exit_code (main w a) = 1%Z)
          ∧ (write_failed w a → exit_code (main w a) = 1%Z)
          ∧ (¬ write_failed w a → all_inactive_services (main w a) = [] →
             exit_code (main w a) = 0%Z)) as Hrun.
  { intros Hnl. unfold write_failed.
    destruct (main_reports a Hacc Hnl) as [log ->].
    destruct (exit_code_of_report a (active_set w a) log) as (H1 & H2 & H3).
    destruct (report_fields a (active_set w a) log) as (_ & Hall & Hout & _).
    simpl in *. split; [done|]. split.
    - intros (p & out & e & Hp & Ho & He). apply H2. exists p, e. split; [done|].
      rewrite Hout in Ho. injection Ho as <-. by rewrite Hall.
    - intros Hnw Hnil. apply H3; [done|]. intros p Hp.
      destruct (fs_write w p _) as [e|] eqn:He; [|done].
      exfalso. apply Hnw. exists p. eexists. exists e.
      split; [done|]. split; [exact Hout|]. by rewrite <- Hall. }
  assert (load_failed w a ∨ ¬ load_failed w a) as [Hf|Hnf].
  { unfold load_failed. destruct (given (service_list a)) as [p|].
    - destruct ((load_active_services w p).1) as [s|] eqn:Hl.
      + right. intros (p' & [= <-] & Hl'). congruence.
      + left. by exists p.
    - right. by intros (p & ? & _). }
  - destruct (Hab Hf) as (Hx & _ & _). by repeat split.
  - destruct (Hrun Hnf) as (R1 & R2 & R3). split; [done|]. split; [done|].
    split; [done|]. intros _. exact R3.
Qed.

(** C2 (amended): for a run with at least one configuration file, the exit
    code is 1 when the service list was asked for and did not load, when
    some finding exists, or when writing the report to the output file
    fails; it is 0 when none of these holds. *)
Theorem exit_code_spec (a : args) :
  accepted a →
  (load_failed w a → exit_code (main w a) = 1%Z)
  ∧ (all_inactive_services (main w a) ≠ [] → exit_code (main w a) = 1%Z)
  ∧ (write_failed w a → exit_code (main w a) = 1%Z)
  ∧ (¬ load_failed w a → ¬ write_failed w a →
     all_inactive_services (main w a) = [] → exit_code (main w a) = 0%Z).
Proof. apply exit_code_cases. Qed.

(** C4 (amended): when the service list argument is a non-empty path and
    loading it gives [None], the run ends with exit code 1, no
    configuration file is analysed, no finding is produced and no report
    is built or written. *)
Theorem load_failure_aborts (a : args) (p : string) :
  service_list a = Some p → p ≠ EmptyString →
  (load_active_services w p).1 = None →
  exit_code (main w a) = 1%Z
  ∧ analyzed (main w a) = []
  ∧ all_inactive_services (main w a) = []
  ∧ output_data (main w a) = None
  ∧ written (main w a) = None.
Proof.
  intros Hp Hne Hl. apply (main_aborts a p); [|done].
  unfold given. rewrite Hp. by destruct p.
Qed.

(** C6 (amended): with no active set (no service list given, or an empty
    path), every file yields no finding and the run has none; with at
    least one configuration file the exit code is 0 unless writing the
    report to the output file fails, and 1 in that case. *)
Theorem no_service_list_no_findings (a : args) :
  accepted a → given (service_list a) = None →
  (∀ cf, (analyze_config_file w cf None).1 = [])
  ∧ analyzed (main w a) = config_files a
  ∧ all_inactive_services (main w a) = []
  ∧ (¬ write_failed w a → exit_code (main w a) = 0%Z)
  ∧ (write_failed w a → exit_code (main w a) = 1%Z).
Proof.
  intros Hacc Hg.
  assert (¬ load_failed w a) as Hnl by (intros (p & Hp & _); congruence).
  assert (all_inactive_services (main w a) = []
          ∧ analyzed (main w a) = config_files a) as [Hnil Han].
  { destruct (main_reports a Hacc Hnl) as [log ->].
    destruct (report_fields a (active_set w a) log) as (-> & -> & _).
    split; [|done]. unfold active_set. rewrite Hg.
    induction (config_files a) as [|f l IH]; simpl; [done|].
    unfold findings_of at 1. by rewrite analyze_None, IH. }
  destruct (exit_code_cases a Hacc) as (_ & _ & H3 & H4).
  split; [apply analyze_None|]. repeat split; auto.
Qed.

End Run.

(** ** Files with problems, and the empty report *)

Section Robust.

Variable w : world.

Lemma concat_findings_skip (A : option (gset string))
    (before after : list string) (bad : string) :
  findings_of w A bad = [] →
  concat (map (findings_of w A) (before ++ bad :: after))
  = concat (map (findings_of w A) before) ++ concat (map (findings_of w A) after).
Proof.
  intros Hbad. rewrite map_app, concat_app. simpl. by rewrite Hbad.
Qed.

(** C7: a file that is missing, unreadable, of an unsupported extension,
    malformed, or whose document is not a mapping yields the empty list of
    findings; a run with at least one file whose service list did not fail
    analyses every file, gathers the findings of all of them in order and
    builds the report, so the files around a problematic one still
    contribute theirs. *)
Theorem per_file_problems_are_local :
  (∀ cf A, per_file_problem w cf → (analyze_config_file w cf A).1 = [])
  ∧ (∀ a, accepted a → ¬ load_failed w a →
       analyzed (main w a) = config_files a
       ∧ all_inactive_services (main w a)
         = concat (map (findings_of w (active_set w a)) (config_files a))
       ∧ output_data (main w a)
         = Some (render (format a) (all_inactive_services (main w a))))
  ∧ (∀ a before bad after,
       config_files a = before ++ bad :: after → ¬ load_failed w a →
       per_file_problem w bad →
       analyzed (main w a) = before ++ bad :: after
       ∧ all_inactive_services (main w a)
         = concat (map (findings_of w (active_set w a)) before)
           ++ concat (map (findings_of w (active_set w a)) after)).
Proof.
  assert (∀ cf A, per_file_problem w cf → (analyze_config_file w cf A).1 = [])
    as Hlocal.
  { intros cf A Hp. apply no_mapping_no_findings. by apply problem_no_mapping. }
  assert (∀ a, accepted a → ¬ load_failed w a →
       analyzed (main w a) = config_files a
       ∧ all_inactive_services (main w a)
         = concat (map (findings_of w (active_set w a)) (config_files a))
       ∧ output_data (main w a)
         = Some (render (format a) (all_inactive_services (main w a))))
    as Hrun.
  { intros a Hacc Hnl. destruct (main_reports w a Hacc Hnl) as [log ->].
    destruct (report_fields w a (active_set w a) log) as (H1 & H2 & H3 & _).
    simpl in *. by rewrite H1, H2, H3. }
  split; [done|]. split; [done|].
  intros a before bad after Hfiles Hnl Hbad.
  assert (accepted a) as Hacc.
  { unfold accepted. rewrite Hfiles. by destruct before. }
  destruct (Hrun a Hacc Hnl) as (-> & -> & _). rewrite Hfiles.
  split; [done|]. apply concat_findings_skip. by apply Hlocal.
Qed.

Lemma main_built (a : args) (out : string) :
  output_data (main w a) = Some out →
  ∃ A log, main w a = report w a A log.
Proof.
  unfold main. destruct (config_files a) as [|f fs']; [done|].
  destruct (given (service_list a)) as [p|]; [|by eexists _, _].
  destruct (load_active_services w p) as [[s|] l]; [by eexists _, _|done].
Qed.

(** C8: when a run builds its report and has no finding, the report is the
    fixed sentence in text mode and the empty JSON array in json mode; it
    is printed when no output file is given and is the content written to
    the output file otherwise. *)
Theorem empty_report (a : args) (out : string) :
  output_data (main w a) = Some out →
  all_inactive_services (main w a) = [] →
  out = match format a with
        | text => "No inactive service configurations found."
        | json => "[]"
        end
  ∧ (given (output a) = None → stdout (main w a) = [Print out])
  ∧ (∀ p, given (output a) = Some p → fs_write w p out = None →
          written (main w a) = Some (p, out)).
Proof.
  intros Hout. destruct (main_built a out Hout) as (A & log & Hm).
  rewrite Hm in Hout |- *.
  destruct (report_fields w a A log) as (_ & Hall & Hdata & Hstd & Hfile).
  simpl in *. rewrite Hall. intros Hnil. rewrite Hnil in *.
  rewrite Hdata in Hout. injection Hout as <-.
  split; [by destruct (format a)|]. split.
  - intros Hg. by destruct (Hstd Hg) as (-> & _).
  - intros p Hp Hw. destruct (Hfile p Hp) as [_ Hf]. rewrite Hw in Hf.
    by destruct Hf as [-> _].
Qed.

End Robust.

(** ** Letter case of the extension *)

Section Extension.

Variable w : world.

Lemma case_variant_char_lower (c l : ascii) :
  Str.lower_char l = l → case_variant_char c l = true → Str.lower_char c = l.
Proof.
  intros Hl [->%Ascii.eqb_eq| ->%Ascii.eqb_eq]%orb_prop; [done|].
  revert Hl. destruct l as [[] [] [] [] [] [] [] []]; vm_compute; congruence.
Qed.

Lemma case_variant_lower (target ext : string) :
  Str.lower target = target → case_variant ext target = true →
  Str.lower ext = target.
Proof.
  revert ext. induction target as [|l t IH]; intros [|c s]; simpl; try done.
  intros [= Hl Ht] [Hc Hs]%andb_prop.
  by rewrite (case_variant_char_lower c l Hl Hc), (IH s Ht Hs).
Qed.

(** C9: when the extension of the path is a letter-case variant of
    ".yaml" or ".yml" the file is handed to the YAML parser, and when it is
    a variant of ".json" to the JSON parser; a mapping the parser returns
    is then scanned for findings. *)
Theorem extension_case_insensitive (cf : string) :
  (case_variant (splitext cf).2 ".yaml" = true
   ∨ case_variant (splitext cf).2 ".yml" = true →
   read_config w cf = parse_with (yaml_safe_load w) "YAML" cf (fs w cf)
   ∧ ∀ t d A, fs w cf = Text t → yaml_safe_load w t = Loaded (VDict d) →
              (analyze_config_file w cf A).1 = scan_items cf d A)
  ∧ (case_variant (splitext cf).2 ".json" = true →
     read_config w cf = parse_with (json_load w) "JSON" cf (fs w cf)
     ∧ ∀ t d A, fs w cf = Text t → json_load w t = Loaded (VDict d) →
                (analyze_config_file w cf A).1 = scan_items cf d A).
Proof.
  split.
  - intros Hv. assert (yaml_ext (file_ext cf)) as Hy.
    { unfold yaml_ext, file_ext.
      destruct Hv as [Hv|Hv]; [left|right]; by apply case_variant_lower. }
    pose proof (read_config_yaml w cf Hy) as Hrd. split; [done|].
    intros t d A Hfs Hl. apply analyze_mapping. rewrite Hrd, Hfs. simpl.
    by rewrite Hl.
  - intros Hv. assert (json_ext (file_ext cf)) as Hj.
    { unfold json_ext, file_ext. by apply case_variant_lower. }
    pose proof (read_config_json w cf Hj) as Hrd. split; [done|].
    intros t d A Hfs Hl. apply analyze_mapping. rewrite Hrd, Hfs. simpl.
    by rewrite Hl.
Qed.

End Extension.

(** ** The properties on the sample environment *)

Section Samples.

Import Sample.

Lemma services_ok : dict_ok services.
Proof. apply (bool_decide_unpack _). vm_compute. exact I. Defined.

Lemma sample_accepted (a : args) : config_files a ≠ [] → accepted a.
Proof. done. Defined.

Lemma finding_iff_witness :
  ((∃ f, f ∈ (analyze_config_file w "conf.JSON" (Some sshd_only)).1
         ∧ service f = "ftpd")
   ↔ dict_get services "ftpd" = Some (VBool true)
     ∧ ∃ S, Some sshd_only = Some S ∧ "ftpd" ∉ S)
  ∧ (∀ f, f ∈ (analyze_config_file w "conf.JSON" (Some sshd_only)).1 →
          service f = "ftpd" →
          f = {| file := "conf.JSON"; service := "ftpd";
                 reason := "Service is enabled in configuration but not listed as active." |}).
Proof.
  apply (finding_iff w "conf.JSON" (Some sshd_only) services "ftpd");
    [reflexivity | exact services_ok].
Defined.

Lemma non_boolean_witness :
  (∀ n v, dict_get services n = Some v → isinstance_bool v = false →
          ¬ ∃ f, f ∈ (analyze_config_file w "conf.JSON" (Some ∅)).1
                 ∧ service f = n)
  ∧ (∀ f, f ∈ (analyze_config_file w "conf.JSON" (Some ∅)).1 →
          dict_get services (service f) = Some (VBool true))
  ∧ isinstance_bool (VStr "true") = false
  ∧ isinstance_bool (VInt 1) = false
  ∧ isinstance_bool (VStr "yes") = false.
Proof.
  apply (non_boolean_never_reported w "conf.JSON" (Some ∅) services);
    [reflexivity | exact services_ok].
Defined.

Lemma findings_antitone_witness :
  (∅ : gset string) ⊆ sshd_only
  ∧ Finding "conf.JSON" "ftpd" REASON
    ∈ (analyze_config_file w "conf.JSON" (Some ∅)).1.
Proof.
  split; [apply empty_subseteq|].
  apply (findings_antitone w "conf.JSON" ∅ sshd_only); [apply empty_subseteq|].
  vm_compute. apply list_elem_of_here.
Defined.

Lemma exit_code_witness :
  (load_failed w a_checked → exit_code (main w a_checked) = 1%Z)
  ∧ (all_inactive_services (main w a_checked) ≠ [] →
     exit_code (main w a_checked) = 1%Z)
  ∧ (write_failed w a_checked → exit_code (main w a_checked) = 1%Z)
  ∧ (¬ load_failed w a_checked → ¬ write_failed w a_checked →
     all_inactive_services (main w a_checked) = [] →
     exit_code (main w a_checked) = 0%Z).
Proof. apply (exit_code_spec w a_checked). apply sample_accepted. discriminate. Defined.

Lemma load_failure_witness :
  exit_code (main w a_missing_list) = 1%Z
  ∧ analyzed (main w a_missing_list) = []
  ∧ all_inactive_services (main w a_missing_list) = []
  ∧ output_data (main w a_missing_list) = None
  ∧ written (main w a_missing_list) = None.
Proof.
  apply (load_failure_aborts w a_missing_list "nolist.txt");
    [reflexivity | discriminate | reflexivity].
Defined.

Lemma no_service_list_witness :
  (∀ cf, (analyze_config_file w cf None).1 = [])
  ∧ analyzed (main w a_unchecked) = config_files a_unchecked
  ∧ all_inactive_services (main w a_unchecked) = []
  ∧ (¬ write_failed w a_unchecked → exit_code (main w a_unchecked) = 0%Z)
  ∧ (write_failed w a_unchecked → exit_code (main w a_unchecked) = 1%Z).
Proof.
  apply (no_service_list_no_findings w a_unchecked);
    [apply sample_accepted; discriminate | reflexivity].
Defined.

Lemma empty_report_witness :
  "No inactive service configurations found."
  = match format a_unchecked with
    | text => "No inactive service configurations found."
    | json => "[]"
    end
  ∧ (given (output a_unchecked) = None →
     stdout (main w a_unchecked)
     = [Print "No inactive service configurations found."])
  ∧ (∀ p, given (output a_unchecked) = Some p →
          fs_write w p "No inactive service configurations found." = None →
          written (main w a_unchecked)
          = Some (p, "No inactive service configurations found.")).
Proof.
  apply (empty_report w a_unchecked "No inactive service configurations found.");
    reflexivity.
Defined.

Lemma loader_witness :
  (load_active_services w "list.txt").1 ≠ Some ∅
  ∧ ((load_active_services w "blank.txt").1 = None
     ↔ fs w "blank.txt" = Missing
       ∨ (∃ e, fs w "blank.txt" = Denied e ∨ fs w "blank.txt" = Undecodable e)
       ∨ ∃ t, fs w "blank.txt" = Text t
              ∧ ∀ line, line ∈ source_lines t → Str.strip line = EmptyString).
Proof.
  split.
  - apply (load_active_services_spec w "list.txt").
  - apply (load_active_services_spec w "blank.txt").
Defined.

Lemma per_file_witness :
  analyzed (main w a_mixed) = [] ++ "broken.yaml" :: ["notes.ini"; "conf.JSON"]
  ∧ all_inactive_services (main w a_mixed)
    = concat (map (findings_of w (active_set w a_mixed)) [])
      ++ concat (map (findings_of w (active_set w a_mixed)) ["notes.ini"; "conf.JSON"]).
Proof.
  apply (per_file_problems_are_local w); [reflexivity | |].
  - intros (p & [= <-] & Hl). vm_compute in Hl. discriminate Hl.
  - apply (malformed_yaml w "broken.yaml" "{" "while parsing a flow node");
      [reflexivity | by left | reflexivity].
Defined.

Lemma extension_witness :
  read_config w "etc/svc.d/net.YAML"
  = parse_with (yaml_safe_load w) "YAML" "etc/svc.d/net.YAML"
      (fs w "etc/svc.d/net.YAML")
  ∧ ∀ t d A, fs w "etc/svc.d/net.YAML" = Text t →
             yaml_safe_load w t = Loaded (VDict d) →
             (analyze_config_file w "etc/svc.d/net.YAML" A).1
             = scan_items "etc/svc.d/net.YAML" d A.
Proof.
  apply (extension_case_insensitive w "etc/svc.d/net.YAML"). left. reflexivity.
Defined.

(** C2, as stated, fails: no service list is asked for, one file is given
    and yields no finding, yet the output file cannot be written and the
    exit code is 1. *)
Lemma exit_code_counterexample :
  ¬ (accepted a_unwritable → ¬ load_failed w a_unwritable →
     all_inactive_services (main w a_unwritable) = [] →
     exit_code (main w a_unwritable) = 0%Z).
Proof.
  intros H. assert (exit_code (main w a_unwritable) = 0%Z) as H0.
  { apply H; [apply sample_accepted; discriminate| |reflexivity].
    intros (p & Hp & _). discriminate Hp. }
  vm_compute in H0. discriminate H0.
Qed.

(** C4, as stated, fails: the service list is supplied as the empty
    string, loading that path gives [None], yet the run goes on, analyses
    the file with no active set and ends with exit code 0. *)
Lemma load_failure_counterexample :
  ¬ (service_list a_empty_path = Some EmptyString →
     (load_active_services w EmptyString).1 = None →
     exit_code (main w a_empty_path) = 1%Z
     ∧ analyzed (main w a_empty_path) = []).
Proof.
  intros H. destruct (H eq_refl eq_refl) as [H0 _].
  vm_compute in H0. discriminate H0.
Qed.

(** C6, as stated, fails: with no service list the run has no finding, but
    the output file cannot be written and the exit code is 1. *)
Lemma no_service_list_counterexample :
  ¬ (service_list a_unwritable_json = None →
     all_inactive_services (main w a_unwritable_json) = []
     ∧ exit_code (main w a_unwritable_json) = 0%Z).
Proof.
  intros H. destruct (H eq_refl) as [_ H0].
  vm_compute in H0. discriminate H0.
Qed.

(** Scenario A of the specification: [ftpd] is enabled and not active. *)
Example scenario_checked :
  all_inactive_services (main w a_checked) = [Finding "conf.JSON" "ftpd" REASON]
  ∧ exit_code (main w a_checked) = 1%Z.
Proof. split; reflexivity. Qed.

(** A malformed file and an unsupported one do not stop the run. *)
Example scenario_mixed :
  analyzed (main w a_mixed) = ["broken.yaml"; "notes.ini"; "conf.JSON"]
  ∧ all_inactive_services (main w a_mixed) = [Finding "conf.JSON" "ftpd" REASON]
  ∧ is_Some (written (main w a_mixed)).
Proof. repeat split; try reflexivity. by eexists. Qed.

(** The extension is matched without regard to letter case. *)
Example scenario_extension :
  file_ext "conf.JSON" = ".json" ∧ file_ext "other.Yml" = ".yml"
  ∧ read_config w "other.Yml" = Data (VList [VStr "a list"])
  ∧ (analyze_config_file w "etc/svc.d/net.YAML" (Some sshd_only)).1
    = [Finding "etc/svc.d/net.YAML" "telnetd" REASON].
Proof. repeat split; reflexivity. Qed.

End Samples.

(** ** Further properties of the detection *)

Section DetectorMore.

Variable w : world.

Lemma scan_items_sublist (cf : string) (M : dict) (A : option (gset string)) :
  sublist (map service (scan_items cf M A)) (dict_keys M).
Proof.
  induction M as [|[k v] M IH]; simpl; [constructor|].
  destruct (isinstance_bool v && bool_value v); [|by constructor].
  destruct (negb (is_service_active k A)); simpl; by constructor.
Qed.

Lemma NoDup_of_services (l : list finding) : NoDup (map service l) → NoDup l.
Proof. apply (NoDup_fmap_1 service). Qed.

(** X1: the services named by the findings of a file that parses to a
    mapping form a subsequence of the mapping's keys, so the findings come
    in the order of the mapping; with unique keys no finding is repeated. *)
Theorem findings_follow_mapping (cf : string) (A : option (gset string))
    (M : dict) :
  read_config w cf = Data (VDict M) →
  sublist (map service (analyze_config_file w cf A).1) (dict_keys M)
  ∧ (dict_ok M → NoDup (analyze_config_file w cf A).1).
Proof.
  intros Hrd. rewrite (analyze_mapping w cf A M Hrd).
  split; [apply scan_items_sublist|].
  intros Hok. apply NoDup_of_services.
  eapply sublist_NoDup; [exact Hok|apply scan_items_sublist].
Qed.

Lemma scan_items_nil_iff (cf : string) (M : dict) (A : option (gset string)) :
  scan_items cf M A = []
  ↔ ∀ n, (n, VBool true) ∈ M → is_service_active n A = true.
Proof.
  split.
  - intros Hnil n Hin. destruct (is_service_active n A) eqn:Hact; [done|].
    assert (Finding cf n REASON ∈ scan_items cf M A) as Hf
      by (apply elem_of_scan_items; eauto).
    rewrite Hnil in Hf. by apply elem_of_nil in Hf.
  - intros Hall. destruct (scan_items cf M A) as [|f l] eqn:Hs; [done|].
    assert (f ∈ scan_items cf M A) as Hf by (rewrite Hs; left).
    apply elem_of_scan_items in Hf as (n & _ & Hin & Hact).
    rewrite (Hall n Hin) in Hact. discriminate Hact.
Qed.

(** X2: a file that parses to a mapping yields no finding exactly when
    every entry that is the boolean [True] has its name in the active set
    (or there is no active set). *)
Theorem no_finding_iff_all_active (cf : string) (A : option (gset string))
    (M : dict) :
  read_config w cf = Data (VDict M) →
  (analyze_config_file w cf A).1 = []
  ↔ ∀ n, (n, VBool true) ∈ M → A = None ∨ ∃ S, A = Some S ∧ n ∈ S.
Proof.
  intros Hrd. rewrite (analyze_mapping w cf A M Hrd), scan_items_nil_iff.
  split; intros Hall n Hin; specialize (Hall n Hin).
  - destruct A as [S|]; [right|by left]. exists S. split; [done|].
    simpl in Hall. by apply bool_decide_eq_true in Hall.
  - destruct Hall as [->|(S & -> & HS)]; [done|]. simpl.
    by apply bool_decide_eq_true.
Qed.


(** X4: the loader logs nothing when it returns a set and exactly one
    record when it returns [None]: a warning when the file was read and
    has no usable line, an error when it is missing or cannot be read. *)
Theorem loader_log_shape (p : string) :
  (∀ s, (load_active_services w p).1 = Some s →
        (load_active_services w p).2 = [])
  ∧ ((load_active_services w p).1 = None →
     ∃ m, (load_active_services w p).2
          = [Log (match fs w p with Text _ => WARNING | _ => ERROR end) m]).
Proof.
  unfold load_active_services.
  destruct (fs w p) as [|e|e|t]; simpl; try (split; [done|eauto]).
  case_bool_decide; simpl; split; try done; eauto.
Qed.

End DetectorMore.

(** ** Further properties of the run *)

Section RunMore.

Variable w : world.

(** The three ways a run goes. *)
Lemma main_cases (a : args) :
  let log := if debug a then [Log DEBUG "Debug mode enabled."] else [] in
  (config_files a = []
   ∧ main w a = Run 1 [] [] None [PrintHelp] None
                  (log ++ [Log ERROR "No configuration files specified."]))
  ∨ (config_files a ≠ [] ∧ load_failed w a
     ∧ ∃ l, main w a = Run 1 [] [] None [] None
                         (log ++ l ++ [Log ERROR "Failed to load active service list, exiting..."]))
  ∨ (config_files a ≠ [] ∧ ¬ load_failed w a
     ∧ ∃ l, main w a = report w a (active_set w a) (log ++ l)).
Proof.
  simpl. unfold main, load_failed, active_set.
  destruct (config_files a) as [|f fs']; [by left|]. right.
  destruct (given (service_list a)) as [p|].
  - destruct (load_active_services w p) as [[s|] l] eqn:Hl; simpl.
    + right. split; [done|]. split; [|by exists l].
      intros (p' & [= <-] & Hn). by rewrite Hl in Hn.
    + left. split; [done|]. split; [|by exists l].
      exists p. by rewrite Hl.
  - right. split; [done|]. split; [by intros (p & ? & _)|].
    exists []. by rewrite app_nil_r.
Qed.

(** What [report] appends to the log it is given. *)
Lemma report_logged (a : args) (A : option (gset string)) (log : list log_record) :
  ∃ tail, (∀ log', logged (report w a A log') = log' ++ tail)
          ∧ (exit_code (report w a A log) = 1%Z →
             all_inactive_services (report w a A log) = [] →
             ∃ m, last tail = Some (Log ERROR m)).
Proof.
  unfold report.
  set (results := map (λ f, analyze_config_file w f A) (config_files a)).
  destruct (given (output a)) as [p|].
  - destruct (fs_write w p _) as [e|]; simpl.
    + eexists. split; [intros log'; by rewrite <- app_assoc|].
      intros _ _. rewrite last_snoc. by eexists.
    + eexists. split; [intros log'; by rewrite <- app_assoc|].
      intros Hc Hn. rewrite Hn in Hc. discriminate Hc.
  - simpl. eexists. split; [done|].
    intros Hc Hn. rewrite Hn in Hc. discriminate Hc.
Qed.

(** X5: the exit code is 0 or 1; it is 0 only when at least one file was
    given, the service list did not fail, every file was analysed, no
    finding exists and the report was printed or written. *)
Theorem exit_zero_sound (a : args) :
  (exit_code (main w a) = 0%Z ∨ exit_code (main w a) = 1%Z)
  ∧ (exit_code (main w a) = 0%Z →
     config_files a ≠ [] ∧ ¬ load_failed w a
     ∧ analyzed (main w a) = config_files a
     ∧ all_inactive_services (main w a) = []
     ∧ ∃ out, output_data (main w a) = Some out
              ∧ ((given (output a) = None ∧ stdout (main w a) = [Print out])
                 ∨ ∃ p, given (output a) = Some p
                        ∧ written (main w a) = Some (p, out))).
Proof.
  destruct (main_cases a) as [(Hf & ->)|[(Hf & Hl & l & ->)|(Hf & Hl & l & ->)]];
    simpl; [by split; [right|]..|].
  destruct (report_fields w a (active_set w a)
              ((if debug a then [Log DEBUG "Debug mode enabled."] else []) ++ l))
    as (Han & Hall & Hout & Hstd & Hfile).
  simpl in *. rewrite Han, Hall, Hout.
  set (all := concat (map (findings_of w (active_set w a)) (config_files a))) in *.
  destruct (given (output a)) as [p|] eqn:Hg.
  - destruct (Hfile p eq_refl) as [Hs Hw].
    destruct (fs_write w p (render (format a) all)) as [e|].
    + destruct Hw as [Hw ->]. split; [by right|done].
    + destruct Hw as [Hw ->]. destruct all as [|f0 all'].
      * split; [by left|]. intros _. repeat split; try done.
        eexists. split; [done|]. right. by exists p.
      * split; [by right|done].
  - destruct (Hstd eq_refl) as (Hs & Hw & ->). destruct all as [|f0 all'].
    + split; [by left|]. intros _. repeat split; try done.
      eexists. split; [done|]. by left.
    + split; [by right|done].
Qed.

(** X6: a file is written only at the requested path, with the report the
    run built, and then nothing is printed; a report is printed only when
    no output file is requested, and then nothing is written. *)
Theorem report_goes_to_one_sink (a : args) :
  (∀ p out, written (main w a) = Some (p, out) →
     given (output a) = Some p ∧ output_data (main w a) = Some out
     ∧ fs_write w p out = None ∧ stdout (main w a) = [])
  ∧ (∀ out, Print out ∈ stdout (main w a) →
     given (output a) = None ∧ output_data (main w a) = Some out
     ∧ written (main w a) = None ∧ stdout (main w a) = [Print out]).
Proof.
  destruct (main_cases a) as [(Hf & ->)|[(Hf & Hl & l & ->)|(Hf & Hl & l & ->)]];
    simpl.
  - split; [done|]. intros out Hin.
    apply list_elem_of_singleton in Hin. discriminate Hin.
  - split; [done|]. by intros out ?%elem_of_nil.
  - destruct (report_fields w a (active_set w a)
                ((if debug a then [Log DEBUG "Debug mode enabled."] else []) ++ l))
      as (_ & _ & Hout & Hstd & Hfile).
    simpl in *. rewrite Hout.
    destruct (given (output a)) as [p|] eqn:Hg.
    + destruct (Hfile p eq_refl) as [Hs Hw]. rewrite Hs. split.
      * intros p' out Hwr.
        destruct (fs_write w p _) as [e|] eqn:He.
        -- destruct Hw as [Hw _]. rewrite Hw in Hwr. discriminate Hwr.
        -- destruct Hw as [Hw _]. rewrite Hw in Hwr. injection Hwr as <- <-.
           done.
      * by intros out ?%elem_of_nil.
    + destruct (Hstd eq_refl) as (Hs & Hw & _). rewrite Hs, Hw. split; [done|].
      intros out Hin. apply list_elem_of_singleton in Hin.
      injection Hin as ->. done.
Qed.

(** X7: a run that ends with exit code 1 and no finding says why: the
    last record it logs is an error. *)
Theorem failure_explained (a : args) :
  exit_code (main w a) = 1%Z → all_inactive_services (main w a) = [] →
  ∃ m, last (logged (main w a)) = Some (Log ERROR m).
Proof.
  destruct (main_cases a) as [(Hf & ->)|[(Hf & Hl & l & ->)|(Hf & Hl & l & ->)]];
    simpl.
  - intros _ _. rewrite last_snoc. by eexists.
  - intros _ _. rewrite app_assoc, last_snoc. by eexists.
  - intros Hc Hn.
    destruct (report_logged a (active_set w a)
                ((if debug a then [Log DEBUG "Debug mode enabled."] else []) ++ l))
      as (tail & Hlog & Hlast).
    destruct (Hlast Hc Hn) as [m Hm]. exists m. rewrite Hlog.
    rewrite last_app, Hm. done.
Qed.

(** X8: every finding a run reports names one of the configuration files
    given, carries the fixed reason, and its service is missing from the
    active set the run loaded. *)
Theorem reported_findings_provenance (a : args) (f : finding) :
  f ∈ all_inactive_services (main w a) →
  file f ∈ config_files a
  ∧ reason f = "Service is enabled in configuration but not listed as active."
  ∧ ∃ S, active_set w a = Some S ∧ service f ∉ S.
Proof.
  destruct (main_cases a) as [(Hf & ->)|[(Hf & Hl & l & ->)|(Hf & Hl & l & ->)]];
    simpl; [by intros ?%elem_of_nil..|].
  destruct (report_fields w a (active_set w a)
              ((if debug a then [Log DEBUG "Debug mode enabled."] else []) ++ l))
    as (_ & Hall & _).
  simpl in Hall. rewrite Hall.
  intros (fl & Hin & Hfl)%list_elem_of_In%in_concat.
  apply in_map_iff in Hin as (cf & <- & Hcf).
  apply list_elem_of_In in Hcf, Hfl.
  apply findings_from_mapping in Hfl as (M & _ & Hfl).
  apply elem_of_scan_items in Hfl as (n & -> & _ & Hact). simpl.
  split; [done|]. split; [done|]. by apply is_service_active_false.
Qed.

(** X9: the debug flag changes nothing but the log, which gains one
    debug record at its head. *)
Theorem debug_only_logs (a : args) :
  let r := main w (with_debug false a) in
  let r' := main w (with_debug true a) in
  exit_code r' = exit_code r ∧ analyzed r' = analyzed r
  ∧ all_inactive_services r' = all_inactive_services r
  ∧ output_data r' = output_data r ∧ stdout r' = stdout r
  ∧ written r' = written r
  ∧ logged r' = Log DEBUG "Debug mode enabled." :: logged r.
Proof.
  simpl. unfold main, with_debug. simpl.
  destruct (config_files a) as [|f fs'] eqn:Hf; [done|].
  destruct (given (service_list a)) as [p|].
  - destruct (load_active_services w p) as [[s|] l]; [|done].
    unfold report. simpl.
    destruct (given (output a)) as [o|]; [|done].
    by destruct (fs_write w o _).
  - unfold report. simpl.
    destruct (given (output a)) as [o|]; [|done].
    by destruct (fs_write w o _).
Qed.

(** X10: an option given as the empty string is the option left out: the
    run is the same for [--service-list ''] and for [--output '']. *)
Theorem empty_option_is_absent (a : args) :
  main w (with_service_list (Some EmptyString) a)
  = main w (with_service_list None a)
  ∧ main w (with_output (Some EmptyString) a) = main w (with_output None a).
Proof. split; reflexivity. Qed.

(** X11: which files are analysed and which findings are made depends on
    the files and the service list only, not on the format, the output
    file or the debug flag. *)
Theorem findings_ignore_presentation (a a' : args) :
  config_files a = config_files a' → service_list a = service_list a' →
  analyzed (main w a) = analyzed (main w a')
  ∧ all_inactive_services (main w a) = all_inactive_services (main w a').
Proof.
  intros Hf Hs.
  assert (∀ b A log,
            analyzed (report w b A log) = config_files b
            ∧ all_inactive_services (report w b A log)
              = concat (map (findings_of w A) (config_files b))) as Hrep.
  { intros b A log. by destruct (report_fields w b A log) as (? & ? & _). }
  unfold main. rewrite <- Hf, <- Hs.
  destruct (config_files a) as [|f fs'] eqn:Hfa; [done|].
  destruct (given (service_list a)) as [p|].
  - destruct (load_active_services w p) as [[s|] l]; [|done].
    destruct (Hrep a (Some s) ((if debug a then [Log DEBUG "Debug mode enabled."] else []) ++ l))
      as [-> ->].
    destruct (Hrep a' (Some s) ((if debug a' then [Log DEBUG "Debug mode enabled."] else []) ++ l))
      as [-> ->].
    by rewrite Hfa, Hf.
  - destruct (Hrep a None (if debug a then [Log DEBUG "Debug mode enabled."] else []))
      as [-> ->].
    destruct (Hrep a' None (if debug a' then [Log DEBUG "Debug mode enabled."] else []))
      as [-> ->].
    by rewrite Hfa, Hf.
Qed.

End RunMore.

(** ** Further properties of the report *)

Section ReportMore.

Lemma str_app_cons (c : ascii) (s t : string) :
  String c s +:+ t = String c (s +:+ t).
Proof. reflexivity. Qed.


Lemma str_app_nil_r (s : string) : s +:+ EmptyString = s.
Proof. induction s as [|c s IH]; [done|]. by rewrite str_app_cons, IH. Qed.

Lemma str_app_assoc (a b c : string) : (a +:+ b) +:+ c = a +:+ (b +:+ c).
Proof. induction a as [|x a IH]; [done|]. by rewrite !str_app_cons, IH. Qed.

Lemma chars_app (a b : string) : chars (a +:+ b) = chars a ++ chars b.
Proof.
  induction a as [|x a IH]; [done|]. rewrite str_app_cons. simpl. by rewrite IH.
Qed.

(** X12: the report is the one for no finding (the fixed sentence in text
    mode, the empty array in json mode) exactly when there is no finding. *)
Theorem render_empty_iff (fmt : output_format) (l : list finding) :
  render fmt l = render fmt [] ↔ l = [].
Proof.
  split; [|by intros ->].
  destruct l as [|f l]; [done|]. intros H. exfalso.
  destruct fmt; vm_compute in H; discriminate H.
Qed.

Lemma blocks_contain (f : finding) (l : list finding) :
  f ∈ l →
  ∃ pre post,
    foldr (λ f acc, text_block f +:+ acc) EmptyString l
    = pre +:+ text_block f +:+ post.
Proof.
  induction l as [|g l IH]; [by intros ?%elem_of_nil|].
  intros [->|Hin]%elem_of_cons; simpl.
  - by exists EmptyString, (foldr (λ f acc, text_block f +:+ acc) EmptyString l).
  - destruct (IH Hin) as (pre & post & ->).
    exists (text_block g +:+ pre), post. by rewrite str_app_assoc.
Qed.

Lemma join_contains (sep x : string) (xs : list string) :
  x ∈ xs → ∃ pre post, Json.join sep xs = pre +:+ x +:+ post.
Proof.
  induction xs as [|y xs IH]; [by intros ?%elem_of_nil|].
  intros [->|Hin]%elem_of_cons.
  - destruct xs as [|z xs].
    + exists EmptyString, EmptyString. simpl. by rewrite str_app_nil_r.
    + by exists EmptyString, (sep +:+ Json.join sep (z :: xs)).
  - destruct (IH Hin) as (pre & post & Hj). destruct xs as [|z xs].
    + by apply elem_of_nil in Hin.
    + exists (y +:+ sep +:+ pre), post.
      change (Json.join sep (y :: z :: xs))
        with (y +:+ sep +:+ Json.join sep (z :: xs)).
      by rewrite Hj, !str_app_assoc.
Qed.

(** X13: every finding shows in the report: in text mode as its block of
    file, service and reason lines, in json mode as its object. *)
Theorem report_shows_every_finding (fmt : output_format) (l : list finding)
    (f : finding) :
  f ∈ l → ∃ pre post, render fmt l = pre +:+ block fmt f +:+ post.
Proof.
  intros Hin. destruct l as [|g l]; [by apply elem_of_nil in Hin|].
  destruct fmt; unfold render, block.
  - destruct (blocks_contain f (g :: l) Hin) as (pre & post & Hb).
    unfold format_text. rewrite Hb.
    exists ("Inactive Service Configurations Found:" +:+ Str.nl +:+ pre), post.
    by rewrite !str_app_assoc.
  - assert (Json.object f ∈ map Json.object (g :: l)) as Ho.
    { apply list_elem_of_In, in_map. by apply list_elem_of_In. }
    destruct (join_contains ("," +:+ Str.nl +:+ "    ") _ _ Ho)
      as (pre & post & Hj).
    unfold Json.dumps. rewrite Hj.
    exists ("[" +:+ Str.nl +:+ "    " +:+ pre), (post +:+ Str.nl +:+ "]").
    by rewrite !str_app_assoc.
Qed.

Lemma printable_forallb (s : string) :
  forallb printable (chars s) = true →
  Forall (λ x, printable x = true) (chars s).
Proof. intros H. apply Forall_forall. intros x Hx.
  by apply (proj1 (forallb_forall _ _) H), list_elem_of_In. Qed.

Lemma ascii_or_lf_forallb (s : string) :
  forallb (λ x, printable x || Ascii.eqb x Str.LF) (chars s) = true →
  Forall (λ x, printable x = true ∨ x = Str.LF) (chars s).
Proof.
  intros H. apply Forall_forall. intros x Hx.
  apply list_elem_of_In in Hx.
  apply (proj1 (forallb_forall _ _) H) in Hx.
  apply orb_prop in Hx as [Hx|Hx]; [by left|right]. by apply Ascii.eqb_eq.
Qed.

Lemma escape_char_printable (c : ascii) :
  Forall (λ x, printable x = true) (chars (Json.escape_char c)).
Proof.
  apply printable_forallb.
  destruct c as [[] [] [] [] [] [] [] []]; vm_compute; reflexivity.
Qed.

Lemma escape_printable (s : string) :
  Forall (λ x, printable x = true) (chars (Json.escape s)).
Proof.
  induction s as [|c s IH]; simpl; [constructor|].
  rewrite chars_app. apply Forall_app. split; [apply escape_char_printable|done].
Qed.

Lemma str_printable (s : string) :
  Forall (λ x, printable x = true ∨ x = Str.LF) (chars (Json.str s)).
Proof.
  unfold Json.str. simpl. constructor; [by left|].
  rewrite chars_app. apply Forall_app. split.
  - eapply Forall_impl; [apply escape_printable|]. by left.
  - constructor; [by left|constructor].
Qed.

Lemma object_printable (f : finding) :
  Forall (λ x, printable x = true ∨ x = Str.LF) (chars (Json.object f)).
Proof.
  unfold Json.object, Json.member.
  rewrite !chars_app, !Forall_app.
  repeat split; try apply str_printable; by apply ascii_or_lf_forallb.
Qed.

Lemma join_printable (sep : string) (xs : list string) :
  Forall (λ x, printable x = true ∨ x = Str.LF) (chars sep) →
  Forall (λ s, Forall (λ x, printable x = true ∨ x = Str.LF) (chars s)) xs →
  Forall (λ x, printable x = true ∨ x = Str.LF) (chars (Json.join sep xs)).
Proof.
  intros Hsep. induction 1 as [|y xs Hy Hxs IH]; [constructor|].
  destruct xs as [|z xs]; [done|].
  change (Json.join sep (y :: z :: xs))
    with (y +:+ sep +:+ Json.join sep (z :: xs)).
  rewrite !chars_app, !Forall_app. auto.
Qed.

(** X14: the json report is plain ASCII whatever the file and service
    names hold: each of its characters is printable ASCII or a line
    feed. *)
Theorem json_report_is_ascii (l : list finding) :
  Forall (λ x, printable x = true ∨ x = Str.LF) (chars (render json l)).
Proof.
  unfold render. destruct l as [|g l]; [by apply ascii_or_lf_forallb|].
  unfold Json.dumps. rewrite !chars_app, !Forall_app.
  split; [by apply ascii_or_lf_forallb|].
  split; [by apply ascii_or_lf_forallb|].
  split; [by apply ascii_or_lf_forallb|].
  split; [|split; by apply ascii_or_lf_forallb].
  apply join_printable; [by apply ascii_or_lf_forallb|].
  apply Forall_forall. intros s Hs.
  apply list_elem_of_In, in_map_iff in Hs as (f & <- & _).
  apply object_printable.
Qed.

End ReportMore.

(** ** Writing a service list and loading it back *)

Section LoaderMore.

Variable w : world.













End LoaderMore.

(** ** The extension of a path *)

Section ExtensionMore.

Variable w : world.

Lemma chars_inj (s t : string) : chars s = chars t → s = t.
Proof.
  revert t. induction s as [|c s IH]; intros [|d t]; simpl; try done.
  intros [= -> ?]. f_equal. auto.
Qed.

Lemma chars_length (s : string) : length (chars s) = String.length s.
Proof. induction s as [|c s IH]; simpl; [done|]. by rewrite IH. Qed.

Lemma chars_substring (n m : nat) (s : string) :
  chars (String.substring n m s) = take m (drop n (chars s)).
Proof.
  revert n m. induction s as [|c s IH]; intros [|n] [|m]; simpl; try done.
  all: by rewrite ?IH, ?drop_0.
Qed.

Lemma rfind_None (c : ascii) (s : string) :
  Str.rfind c s = None → c ∉ chars s.
Proof.
  induction s as [|x s IH]; simpl; [intros _; apply not_elem_of_nil|].
  destruct (Str.rfind c s); [done|].
  destruct (Ascii.eqb_spec x c); [done|]. intros _.
  rewrite not_elem_of_cons. split; [congruence|auto].
Qed.

Lemma rfind_Some (c : ascii) (s : string) (d : nat) :
  Str.rfind c s = Some d →
  chars s !! d = Some c ∧ c ∉ drop (S d) (chars s).
Proof.
  revert d. induction s as [|x s IH]; simpl; [done|]. intros d.
  destruct (Str.rfind c s) as [i|] eqn:Hr.
  - intros [= <-]. by apply IH.
  - destruct (Ascii.eqb_spec x c) as [->|]; [|done]. intros [= <-].
    split; [done|]. simpl. rewrite drop_0. by apply rfind_None.
Qed.

Lemma not_elem_of_drop_le {A} (x : A) (l : list A) (m n : nat) :
  m ≤ n → x ∉ drop m l → x ∉ drop n l.
Proof.
  intros Hle Hx Hin. apply Hx.
  replace n with (m + (n - m)) in Hin by lia.
  rewrite <- drop_drop in Hin. by eapply subseteq_drop.
Qed.

Lemma splitext_parts (p : string) :
  fst (splitext p) +:+ snd (splitext p) = p
  ∧ ((splitext p).2 = EmptyString
     ∨ ∃ r, (splitext p).2 = String "."%char r
            ∧ ("."%char ∉ chars r) ∧ ("/"%char ∉ chars r)).
Proof.
  unfold splitext.
  destruct (Str.rfind "."%char p) as [d|] eqn:Hd;
    [|simpl; split; [apply str_app_nil_r|by left]].
  set (start := match Str.rfind "/"%char p with
                | Some sepIndex => S sepIndex
                | None => 0
                end).
  destruct ((start <=? d)
            && negb (Str.all_dots (String.substring start (d - start) p)))
    eqn:Hc; [|simpl; split; [apply str_app_nil_r|by left]].
  apply andb_prop in Hc as [Hle%Nat.leb_le _].
  destruct (rfind_Some _ _ _ Hd) as [Hat Hafter]. simpl.
  assert (chars (String.substring d (String.length p - d) p)
          = "."%char :: drop (S d) (chars p)) as Hext.
  { rewrite chars_substring, take_ge.
    - by apply drop_S.
    - rewrite length_drop, chars_length. lia. }
  split.
  - apply chars_inj. rewrite chars_app, Hext, chars_substring, drop_0.
    rewrite <- (drop_S _ _ _ Hat). apply take_drop.
  - right. destruct (String.substring d (String.length p - d) p) as [|c r];
      [done|].
    simpl in Hext. injection Hext as -> Hr. exists r. split; [done|].
    rewrite Hr. split; [done|].
    subst start. destruct (Str.rfind "/"%char p) as [i|] eqn:Hs.
    + destruct (rfind_Some _ _ _ Hs) as [_ Hno].
      apply (not_elem_of_drop_le _ _ (S i)); [lia|done].
    + intros Hin. apply (rfind_None _ _ Hs). by eapply subseteq_drop.
Qed.

(** X16: the two parts [splitext] returns join back to the path; the
    extension is empty or is a dot followed by characters among which
    there is neither a dot nor a slash. *)
Theorem splitext_spec (p : string) :
  fst (splitext p) +:+ snd (splitext p) = p
  ∧ ((splitext p).2 = EmptyString
     ∨ ∃ r, (splitext p).2 = String "."%char r
            ∧ ("."%char ∉ chars r) ∧ ("/"%char ∉ chars r)).
Proof. apply splitext_parts. Qed.

(** X17: a path with no dot in it has no extension, so the file is never
    handed to a parser: it yields no finding, and when it can be opened
    the one record logged is the warning about the unsupported type. *)
Theorem dotless_path_is_skipped (cf : string) (A : option (gset string)) :
  "."%char ∉ chars cf →
  (analyze_config_file w cf A).1 = []
  ∧ (fs w cf ≠ Missing → (∀ e, fs w cf ≠ Denied e) →
     (analyze_config_file w cf A).2
     = [Log WARNING ("Unsupported file type:  for file " +:+ cf +:+ ". Skipping.")]).
Proof.
  intros Hdot.
  assert (file_ext cf = EmptyString) as Hext.
  { unfold file_ext. destruct (splitext_parts cf) as [Hjoin [->|(r & Hr & _)]];
      [done|].
    exfalso. apply Hdot. rewrite <- Hjoin, chars_app, Hr. simpl.
    apply elem_of_app. right. left. }
  unfold analyze_config_file, read_config. rewrite Hext. simpl.
  destruct (fs w cf) as [|e|e|t]; simpl; split; try done.
  intros _ He. by destruct (He e).
Qed.

End ExtensionMore.

(** ** The further properties on the samples *)

Section SamplesMore.

Lemma findings_follow_mapping_witness :
  sublist (map service (analyze_config_file Sample.w "conf.JSON" (Some Sample.sshd_only)).1)
    (dict_keys Sample.services)
  ∧ (dict_ok Sample.services →
     NoDup (analyze_config_file Sample.w "conf.JSON" (Some Sample.sshd_only)).1).
Proof.
  apply (findings_follow_mapping Sample.w "conf.JSON" (Some Sample.sshd_only)
           Sample.services).
  reflexivity.
Defined.

Lemma no_finding_iff_witness :
  (analyze_config_file Sample.w "conf.JSON" (Some Sample.sshd_ftpd)).1 = []
  ↔ ∀ n, (n, VBool true) ∈ Sample.services →
         Some Sample.sshd_ftpd = None
         ∨ ∃ S, Some Sample.sshd_ftpd = Some S ∧ n ∈ S.
Proof.
  apply (no_finding_iff_all_active Sample.w "conf.JSON" (Some Sample.sshd_ftpd)
           Sample.services).
  reflexivity.
Defined.

Lemma failure_explained_witness :
  ∃ m, last (logged (main Sample.w Sample.a_missing_list)) = Some (Log ERROR m).
Proof.
  apply (failure_explained Sample.w Sample.a_missing_list); reflexivity.
Defined.

Lemma provenance_witness :
  file Sample2.ftpd_finding ∈ config_files Sample.a_checked
  ∧ reason Sample2.ftpd_finding
    = "Service is enabled in configuration but not listed as active."
  ∧ ∃ S, active_set Sample.w Sample.a_checked = Some S
         ∧ service Sample2.ftpd_finding ∉ S.
Proof.
  apply (reported_findings_provenance Sample.w Sample.a_checked
           Sample2.ftpd_finding).
  vm_compute. apply list_elem_of_here.
Defined.

Lemma presentation_witness :
  analyzed (main Sample.w Sample.a_unchecked)
  = analyzed (main Sample.w Sample.a_unwritable)
  ∧ all_inactive_services (main Sample.w Sample.a_unchecked)
    = all_inactive_services (main Sample.w Sample.a_unwritable).
Proof.
  apply (findings_ignore_presentation Sample.w Sample.a_unchecked
           Sample.a_unwritable); reflexivity.
Defined.

Lemma report_shows_witness :
  ∃ pre post,
    render json [Sample2.ftpd_finding; Sample2.telnetd_finding]
    = pre +:+ block json Sample2.telnetd_finding +:+ post.
Proof.
  apply (report_shows_every_finding json
           [Sample2.ftpd_finding; Sample2.telnetd_finding]
           Sample2.telnetd_finding).
  apply list_elem_of_further, list_elem_of_here.
Defined.



Lemma dotless_witness :
  (analyze_config_file Sample2.w "Makefile" None).1 = []
  ∧ (fs Sample2.w "Makefile" ≠ Missing →
     (∀ e, fs Sample2.w "Makefile" ≠ Denied e) →
     (analyze_config_file Sample2.w "Makefile" None).2
     = [Log WARNING
          ("Unsupported file type:  for file " +:+ "Makefile" +:+ ". Skipping.")]).
Proof.
  apply (dotless_path_is_skipped Sample2.w "Makefile" None).
  apply (bool_decide_unpack _). vm_compute. exact I.
Defined.

End SamplesMore.
